(** * http_forward: the mirroring handler of [main.py], embedded and verified

    The program is a FastAPI application with one catch-all route.  Its
    handler [forward] logs the inbound request ([log_request]), starts one
    [forward_request] coroutine per configured URL, joins them with
    [asyncio.gather(..., return_exceptions=True)] and answers the caller from
    the outcome of the first one.

    The embedding keeps the shape of the source:
    - Python values the code handles are records and inductive types;
      a [dict] with string keys is a [gmap string _];
    - the effects of the handler (the body cache of the request object, the
      records handed to the logger, the requests handed to the HTTP client)
      are threaded through an explicit state with a small exception monad;
    - the libraries the code calls ([json.loads], [json.dumps], the network
      behind [client.request], the event loop's completion order) are
      parameters; the constructor of the response, which the handler calls
      in its return statements, is modelled after Starlette, with the
      exception it raises and the headers it adds. *)

From Stdlib Require Import ZArith NArith Lia.
From Stdlib Require Import Strings.Byte.
From stdpp Require Import base strings gmap list pretty.

Local Open Scope string_scope.
Local Open Scope list_scope.

(** ** Python data *)

(** [bytes] objects. *)
Abbreviation bytes := (list byte).

(** A [str] is represented by its UTF-8 encoding, held in a Rocq [string]. *)
Definition str_of_bytes (b : bytes) : string := String.string_of_list_byte b.
Definition bytes_of_str (s : string) : bytes := String.list_byte_of_string s.

(** A [dict] whose keys and values are [str]. *)
Abbreviation dict := (gmap string string).

(** The exceptions that occur in the handler. *)
Inductive exn : Type :=
| UnicodeDecodeError
| UnicodeEncodeError
| JSONDecodeError
| RecursionError
| HTTPError (cls detail : string).   (* what [client.request] raises *)

(** [str(e)], which the handlers put in the log.  Only exceptions of the
    client reach a handler that logs them; for the others the text is
    shortened. *)
Definition exn_str (e : exn) : string :=
  match e with
  | UnicodeDecodeError => "'utf-8' codec can't decode bytes"
  | UnicodeEncodeError => "'latin-1' codec can't encode characters"
  | JSONDecodeError => "Expecting value"
  | RecursionError => "maximum recursion depth exceeded"
  | HTTPError _ detail => detail
  end.

(** A call returns a value or raises. *)
Inductive result (A : Type) : Type :=
| Ok (a : A)
| Raise (e : exn).
Global Arguments Ok {A} a.
Global Arguments Raise {A} e.

(** ** [bytes.decode()]: strict UTF-8 *)

Module Utf8.

Local Open Scope N_scope.

Definition between (lo hi b : N) : bool := (lo <=? b) && (b <=? hi).

(** A continuation byte, 10xxxxxx. *)
Definition cont (b : N) : bool := between 0x80 0xBF b.

(** Well-formed UTF-8 (no overlong forms, no surrogates, nothing above
    U+10FFFF), which is what the strict decoder of Python accepts. *)
Fixpoint well_formed (bs : list N) : bool :=
  match bs with
  | [] => true
  | b0 :: t0 =>
      if b0 <=? 0x7F then well_formed t0
      else if between 0xC2 0xDF b0 then
        match t0 with
        | b1 :: t1 => cont b1 && well_formed t1
        | _ => false
        end
      else if between 0xE0 0xEF b0 then
        match t0 with
        | b1 :: b2 :: t2 =>
            (if b0 =? 0xE0 then between 0xA0 0xBF b1
             else if b0 =? 0xED then between 0x80 0x9F b1
             else cont b1)
            && cont b2 && well_formed t2
        | _ => false
        end
      else if between 0xF0 0xF4 b0 then
        match t0 with
        | b1 :: b2 :: b3 :: t3 =>
            (if b0 =? 0xF0 then between 0x90 0xBF b1
             else if b0 =? 0xF4 then between 0x80 0x8F b1
             else cont b1)
            && cont b2 && cont b3 && well_formed t3
        | _ => false
        end
      else false
  end.

Definition valid (b : bytes) : bool := well_formed (map Byte.to_N b).

End Utf8.

(** ** Objects of the frameworks *)

(** [request.url]: the attributes the handler reads. *)
Record URL : Type := mkURL {
  url_str : string;      (* str(request.url) *)
  url_path : string;     (* request.url.path *)
  url_query : string     (* request.url.query, without the question mark *)
}.

(** The inbound [Request].  The mappings [request.headers] and
    [request.query_params] are given by the dict that [dict(...)] makes of
    them; header names arrive lower-cased from the server.  [req_stream] holds
    the bytes of the body as they are on the wire; the body is taken to
    arrive completely. *)
Record Request : Type := mkRequest {
  req_method : string;
  req_url : URL;
  req_client : option string;     (* request.client.host, None without client *)
  req_headers : dict;
  req_query_params : dict;
  req_stream : bytes
}.

(** An [httpx.Response]; [resp_headers] is the dict that
    [dict(response.headers)] makes, keyed by lower-cased header names. *)
Record HttpxResponse : Type := mkHttpxResponse {
  resp_status_code : Z;
  resp_headers : dict;
  resp_content : bytes
}.

(** The arguments of one [client.request(...)] call. *)
Record OutboundRequest : Type := mkOutbound {
  out_method : string;
  out_url : string;
  out_headers : dict;
  out_content : bytes;
  out_follow_redirects : bool
}.

(** A call [Response(content=..., status_code=..., headers=...,
    media_type=...)] of a return statement of the handler, as the keyword
    arguments it is given; an argument that is not passed is [None], and a
    [str] given as content is held by its bytes.  [Starlette.init] below is
    the constructor that the call runs. *)
Record ResponseCall : Type := mkResponseCall {
  content : bytes;
  status_code : Z;
  headers : option dict;
  media_type : option string
}.

(** ** The constructor of [starlette.responses.Response]

    [fastapi.responses.Response] is the class of Starlette.  Its
    constructor keeps the body and the status code, and builds the headers
    of the response from the mapping it is given: names and values are
    encoded in latin-1, a content-length computed from the body is added
    unless the mapping has one or the status code allows no body, and a
    content-type made from the media type is added unless the mapping has
    one.  The headers of the built response are held as the mapping
    [response.headers], without the order of the list behind it.  The
    names the handler passes are in lower case already, so that lowering
    them changes nothing. *)

Module Starlette.

Record Response : Type := mkResponse {
  body : bytes;
  status_code : Z;
  headers : dict;
  media_type : option string
}.

(** [s.encode("latin-1")] returns: every character of [s] is below U+0100.
    On the UTF-8 form of a [str] these are the strings without a byte
    above C3, since C2 and C3 lead the characters from U+0080 to U+00FF
    and every longer form has a greater lead byte. *)
Definition latin1 (s : string) : bool :=
  forallb (λ b, (Byte.to_N b <? 0xC4)%N) (bytes_of_str s).

(** Every name and every value of the mapping can be encoded. *)
Definition encodable (given : dict) : bool :=
  forallb (λ kv, latin1 kv.1 && latin1 kv.2) (map_to_list given).

(** [str(n)] for a length. *)
Definition decimal (n : nat) : string := pretty n.

(** [s.lower()], on the letters A to Z. *)
Definition lower_char (c : Ascii.ascii) : Ascii.ascii :=
  let n := Ascii.N_of_ascii c in
  if ((65 <=? n) && (n <=? 90))%N then Ascii.ascii_of_N (n + 32) else c.

Fixpoint lower (s : string) : string :=
  match s with
  | EmptyString => EmptyString
  | String c s' => String (lower_char c) (lower s')
  end.

(** [needle in hay]. *)
Fixpoint contains (needle hay : string) : bool :=
  String.prefix needle hay ||
  match hay with
  | EmptyString => false
  | String _ hay' => contains needle hay'
  end.

(** A status code below 200, 204 or 304: no content-length is added. *)
Definition bodiless (status_code : Z) : bool :=
  (status_code <? 200)%Z || (status_code =? 204)%Z || (status_code =? 304)%Z.

(** The second half of [init_headers]: the two headers the constructor
    adds to the encoded ones. *)
Definition populate (body : bytes) (status_code : Z)
    (media_type : option string) (raw_headers : dict)
    (populate_content_length populate_content_type : bool) : result dict :=
  let raw_headers :=
    if populate_content_length && negb (bodiless status_code)
    then <["content-length" := decimal (length body)]> raw_headers
    else raw_headers in
  match media_type with
  | Some content_type =>
      if populate_content_type
      then
        let content_type :=
          if String.prefix "text/" content_type &&
             negb (contains "charset=" (lower content_type))
          then content_type +:+ "; charset=utf-8"
          else content_type in
        if latin1 content_type
        then Ok (<["content-type" := content_type]> raw_headers)
        else Raise UnicodeEncodeError
      else Ok raw_headers
  | None => Ok raw_headers
  end.

Definition init_headers (body : bytes) (status_code : Z)
    (headers : option dict) (media_type : option string) : result dict :=
  match headers with
  | None => populate body status_code media_type ∅ true true
  | Some given =>
      if encodable given
      then populate body status_code media_type given
             (bool_decide (given !! "content-length" = None))
             (bool_decide (given !! "content-type" = None))
      else Raise UnicodeEncodeError
  end.

(** [Response.__init__], on content that is [bytes] already. *)
Definition new (content : bytes) (status_code : Z)
    (headers : option dict) (media_type : option string) : result Response :=
  match init_headers content status_code headers media_type with
  | Ok raw_headers =>
      Ok {| body := content;
            status_code := status_code;
            headers := raw_headers;
            media_type := media_type |}
  | Raise e => Raise e
  end.

End Starlette.

(** The constructor run on a call of the handler. *)
Definition construct (call : ResponseCall) : result Starlette.Response :=
  Starlette.new (content call) (status_code call) (headers call)
    (media_type call).

(** ** Truthiness *)

(** [if body], [if request.url.query], [if responses]: a [bytes], [str] or
    [list] object is true when it is not empty. *)
Definition bytes_truthy (b : bytes) : bool :=
  match b with [] => false | _ :: _ => true end.

Definition str_truthy (s : string) : bool :=
  match s with EmptyString => false | String _ _ => true end.

Definition list_truthy {A : Type} (l : list A) : bool :=
  match l with [] => false | _ :: _ => true end.

(** An element of the list [asyncio.gather] returns when it is called with
    [return_exceptions=True]: the response of a task, or the exception the
    task raised. *)
Inductive pyval : Type :=
| VResponse (r : HttpxResponse)
| VException (e : exn).

(** Truth value of [primary_response], which is [None] or an element of
    [responses].  Neither [httpx.Response] nor the exception classes define
    [__bool__] or [__len__], so every object other than [None] is true. *)
Definition truthy (v : option pyval) : bool :=
  match v with
  | None => false
  | Some (VResponse _) => true
  | Some (VException _) => true
  end.

(** [isinstance(v, httpx.Response)], with the response it then is. *)
Definition as_response (v : option pyval) : option HttpxResponse :=
  match v with
  | Some (VResponse r) => Some r
  | _ => None
  end.

Definition isinstance_Response (v : option pyval) : bool :=
  match as_response v with Some _ => true | None => false end.

(** ** [json.dumps] of the two error bodies *)

(** The quotation mark, code 34. *)
Definition dquote : string := String (Ascii.ascii_of_nat 34) EmptyString.

Definition json_quote (s : string) : string := dquote +:+ s +:+ dquote.

(** [json.dumps({"error": msg})] for a message without characters that need
    escaping: the default separators are [", "] and [": "]. *)
Definition json_dumps_error (msg : string) : string :=
  "{" +:+ json_quote "error" +:+ ": " +:+ json_quote msg +:+ "}".

(** ** Effects *)

Section Handler.

(** [json.loads] on a [str]: the parsed value, or [None] when it raises.
    [json.dumps] on a value that [json.loads] made: its text, or [None] when
    it raises [RecursionError], the value being nested too deeply for the
    encoder. *)
Context {Json : Type} (json_loads : string → option Json)
  (json_dumps : Json → option string).

(** The value bound to [body_data] in [log_request] when it is not
    [None]. *)
Inductive body_data : Type :=
| BodyJson (j : Json)
| BodyText (s : string).

(** The dict [log_data].  The entry ["time"] is the clock's reading and is
    left out. *)
Record LogData : Type := mkLogData {
  ld_method : string;
  ld_url : string;
  ld_client_ip : option string;
  ld_headers : dict;
  ld_query_params : dict;
  ld_body : option body_data
}.

(** What is handed to the logger: one constructor per call site. *)
Inductive LogRecord : Type :=
| RequestReceived (d : LogData)                              (* info *)
| ForwardingRequest (d : LogData) (forward_url : string)     (* debug *)
| ReceivedResponse (d : LogData) (forward_url : string)
    (status : Z) (response_size : nat)                       (* debug *)
| ForwardingError (d : LogData) (forward_url error : string) (* error *)
| ForwardingFailed (d : LogData) (error : string).           (* error *)

(** The state the handler acts on: the body the request object caches
    after its first read ([request._body]), the records given to the logger
    and the requests given to the HTTP client, both oldest first. *)
Record World : Type := mkWorld {
  w_body : option bytes;
  w_log : list LogRecord;
  w_sent : list OutboundRequest
}.

(** The state a fresh request starts the handler in. *)
Definition initial : World := mkWorld None [] [].

(** Computations that read and change the state and return or raise. *)
Definition M (A : Type) : Type := World → result A * World.

Global Instance M_ret : MRet M := λ A a w, (Ok a, w).

Global Instance M_bind : MBind M := λ A B f m w,
  match m w with
  | (Ok a, w') => f a w'
  | (Raise e, w') => (Raise e, w')
  end.

Definition raise {A : Type} (e : exn) : M A := λ w, (Raise e, w).

(** [try: body / except: handler]. *)
Definition try_except {A : Type} (body : M A) (handler : exn → M A) : M A :=
  λ w,
    match body w with
    | (Ok a, w') => (Ok a, w')
    | (Raise e, w') => handler e w'
    end.

(** A call whose outcome is inspected rather than propagated. *)
Definition attempt {A : Type} (m : M A) : M (result A) :=
  λ w, let '(r, w') := m w in (Ok r, w').

(** A value or an exception coming from outside, without effect on the
    state. *)
Definition lift {A : Type} (r : result A) : M A := λ w, (r, w).

(** [logger.info], [logger.debug], [logger.error]: the record is handed to
    the logging module, which does not raise into its caller.  The argument
    of each call is the [json.dumps] of the record.  For the receipt that
    call is [dumps] below; the other records are built from a [log_data]
    that [log_request] has serialised before, with entries added that are
    strings and numbers, so that their [json.dumps] returns. *)
Definition emit (recs : list LogRecord) (w : World) : World :=
  mkWorld (w_body w) (w_log w ++ recs) (w_sent w).

Definition logger (r : LogRecord) : M unit := λ w, (Ok (), emit [r] w).

(** [await request.body()]: the first call reads the stream and keeps the
    bytes on the request object, later calls return the kept bytes. *)
Definition request_body (request : Request) : M bytes :=
  λ w,
    match w_body w with
    | Some b => (Ok b, w)
    | None =>
        let b := req_stream request in
        (Ok b, mkWorld (Some b) (w_log w) (w_sent w))
    end.

(** [b.decode()]. *)
Definition decode (b : bytes) : M string :=
  if Utf8.valid b then mret (str_of_bytes b) else raise UnicodeDecodeError.

(** [json.loads(s)]. *)
Definition loads (s : string) : M Json :=
  match json_loads s with
  | Some j => mret j
  | None => raise JSONDecodeError
  end.

(** [json.dumps(log_data, ensure_ascii=False)] at the end of
    [log_request].  The entries of [log_data] other than the body are
    strings and dicts of strings, so that the call returns or raises as
    [json.dumps] does on the parsed body.  Only this is kept of the call: the
    records of the log hold the dict, not its text. *)
Definition dumps (log_data : LogData) : M unit :=
  match ld_body log_data with
  | Some (BodyJson j) =>
      match json_dumps j with
      | Some _ => mret ()
      | None => raise RecursionError
      end
  | Some (BodyText _) | None => mret ()
  end.

(** *** [log_request] *)

Definition log_request (request : Request) : M LogData :=
  body ← request_body request;
  body_data ← try_except
    (if bytes_truthy body
     then s ← decode body; j ← loads s; mret (Some (BodyJson j))
     else mret None)
    (λ _,
     if bytes_truthy body
     then s ← decode body; mret (Some (BodyText s))
     else mret None);
  let log_data :=
    {| ld_method := req_method request;
       ld_url := url_str (req_url request);
       ld_client_ip := req_client request;
       ld_headers := req_headers request;
       ld_query_params := req_query_params request;
       ld_body := body_data |} in
  dumps log_data;;
  logger (RequestReceived log_data);;
  mret log_data.

(** *** [forward_request] *)

(** The behaviour of [client.request] for one call: the response of the
    exchange, whatever its status, or the exception raised when there is
    no exchange (refused connection, timeout, name resolution, ...). *)
Definition Client : Type := OutboundRequest → result HttpxResponse.

(** Handing a request to the HTTP client. *)
Definition send (o : OutboundRequest) : M unit :=
  λ w, (Ok (), mkWorld (w_body w) (w_log w) (w_sent w ++ [o])).

(** [await client.request(...)]. *)
Definition client_request (client : Client) (o : OutboundRequest)
  : M HttpxResponse :=
  send o;; lift (client o).

(** [headers = dict(request.headers); headers.pop('host', None)]: the pop
    acts on the copy. *)
Definition outbound_headers (request : Request) : dict :=
  delete "host" (req_headers request).

(** [f"{url}?{request.url.query}" if request.url.query else url]. *)
Definition full_url (url : string) (request : Request) : string :=
  if str_truthy (url_query (req_url request))
  then url +:+ "?" +:+ url_query (req_url request)
  else url.

(** The [except Exception as e] clause of [forward_request]: log, then
    re-raise. *)
Definition forwarding_error (url : string) (log_data : LogData) (e : exn)
  : M HttpxResponse :=
  logger (ForwardingError log_data url (exn_str e));;
  raise e.

Definition forward_request (client : Client) (url : string)
    (request : Request) (log_data : LogData) : M HttpxResponse :=
  try_except
    (body ← request_body request;
     let headers := outbound_headers request in
     let full_url := full_url url request in
     logger (ForwardingRequest log_data full_url);;
     response ← client_request client
       {| out_method := req_method request;
          out_url := full_url;
          out_headers := headers;
          out_content := body;
          out_follow_redirects := true |};
     logger (ReceivedResponse log_data full_url
               (resp_status_code response)
               (length (resp_content response)));;
     mret response)
    (forwarding_error url log_data).

(** *** [forward_request] around its suspension point

    A coroutine started by [asyncio.gather] runs until it waits for the
    network, and is resumed when the exchange is over.  [start] is
    [forward_request] up to the moment the request is with the client;
    [settle] is the rest, which only logs and returns or raises. *)

Definition start (url : string) (request : Request) (log_data : LogData)
  : M OutboundRequest :=
  try_except
    (body ← request_body request;
     let headers := outbound_headers request in
     let full_url := full_url url request in
     logger (ForwardingRequest log_data full_url);;
     let o :=
       {| out_method := req_method request;
          out_url := full_url;
          out_headers := headers;
          out_content := body;
          out_follow_redirects := true |} in
     send o;;
     mret o)
    (λ e, logger (ForwardingError log_data url (exn_str e));; raise e).

(** The outcome of a started task and the records it logs on the way. *)
Definition settle (client : Client) (url : string) (log_data : LogData)
    (o : OutboundRequest) : result HttpxResponse * list LogRecord :=
  match client o with
  | Ok response =>
      (Ok response,
       [ReceivedResponse log_data (out_url o)
          (resp_status_code response) (length (resp_content response))])
  | Raise e =>
      (Raise e, [ForwardingError log_data url (exn_str e)])
  end.

Definition resume (client : Client) (url : string) (log_data : LogData)
    (o : OutboundRequest) : M HttpxResponse :=
  λ w, let '(r, recs) := settle client url log_data o in (r, emit recs w).

(** *** The tasks and [asyncio.gather] *)

(** A coroutine object [forward_request(client, url, request, log_data)],
    not yet started. *)
Record Task : Type := mkTask {
  task_client : Client;
  task_url : string;
  task_request : Request;
  task_log_data : LogData
}.

(** The loop over [enumerate(CONFIG['forward_urls'])], from index [i] on:
    the task of index 0 goes to the front of [tasks], the others to its
    end.  The call of index [i] meets the network as [net i]. *)
Fixpoint make_tasks (net : nat → Client) (request : Request)
    (log_data : LogData) (i : nat) (urls : list string)
    (tasks : list Task) : list Task :=
  match urls with
  | [] => tasks
  | url :: urls' =>
      let is_primary := Nat.eqb i 0 in
      let task := mkTask (net i) url request log_data in
      make_tasks net request log_data (S i) urls'
        (if is_primary then task :: tasks else tasks ++ [task])
  end.

(** Every task runs, in the order of the list, up to its suspension. *)
Fixpoint start_all (tasks : list Task) (w : World)
  : list (Task * result OutboundRequest) * World :=
  match tasks with
  | [] => ([], w)
  | t :: ts =>
      let '(r, w1) :=
        start (task_url t) (task_request t) (task_log_data t) w in
      let '(rs, w2) := start_all ts w1 in
      ((t, r) :: rs, w2)
  end.

(** The outcome a child holds once it is done: position [i] of the list is
    the future of task [i], whenever that task got its answer. *)
Definition outcome (child : Task * result OutboundRequest)
  : result HttpxResponse :=
  match child with
  | (t, Ok o) => fst (settle (task_client t) (task_url t) (task_log_data t) o)
  | (_, Raise e) => Raise e
  end.

(** Child [i] is resumed: its completion is logged. *)
Definition complete (children : list (Task * result OutboundRequest))
    (w : World) (i : nat) : World :=
  match children !! i with
  | Some (t, Ok o) =>
      snd (resume (task_client t) (task_url t) (task_log_data t) o w)
  | _ => w
  end.

Definition value (r : result HttpxResponse) : pyval :=
  match r with
  | Ok response => VResponse response
  | Raise e => VException e
  end.

(** Without [return_exceptions], the first exception to occur is raised
    into the caller of [gather]. *)
Definition first_raised (outcomes : list (result HttpxResponse))
    (order : list nat) : option exn :=
  head (omap (λ i, match outcomes !! i with
                   | Some (Raise e) => Some e
                   | _ => None
                   end) order).

(** [await asyncio.gather] on the unpacked [tasks].  [order] lists
    the indices of the children in the order in which the event loop
    resumes them; the result list follows the order of [tasks]. *)
Definition gather (tasks : list Task) (return_exceptions : bool)
    (order : list nat) : M (list pyval) :=
  λ w,
    let '(children, w1) := start_all tasks w in
    let w2 := foldl (complete children) w1 order in
    let outcomes := outcome <$> children in
    if return_exceptions then (Ok (value <$> outcomes), w2)
    else
      match first_raised outcomes order with
      | Some e => (Raise e, w2)
      | None => (Ok (value <$> outcomes), w2)
      end.

(** *** [forward] *)

Record Config : Type := mkConfig {
  forward_urls : list string     (* CONFIG['forward_urls'] *)
}.

(** [Response(content=json.dumps({"error": msg}), status_code=code,
    media_type='application/json')]. *)
Definition error_response (msg : string) (code : Z) : ResponseCall :=
  {| content := bytes_of_str (json_dumps_error msg);
     status_code := code;
     headers := None;
     media_type := Some "application/json" |}.

(** The response built from the primary response. *)
Definition primary_result (primary_response : HttpxResponse) : ResponseCall :=
  let headers := resp_headers primary_response in
  let headers := delete "content-encoding" headers in
  let headers := delete "content-length" headers in
  let headers := delete "transfer-encoding" headers in
  {| content := resp_content primary_response;
     status_code := resp_status_code primary_response;
     headers := Some headers;
     media_type := resp_headers primary_response !! "content-type" |}.

(** The statements after the join: [responses[0] if responses else None],
    the test [primary_response and isinstance(...)], and the two
    returns. *)
Definition respond (responses : list pyval) : ResponseCall :=
  let primary_response :=
    if list_truthy responses then responses !! 0%nat else None in
  if truthy primary_response && isinstance_Response primary_response
  then
    match as_response primary_response with
    | Some r => primary_result r
    | None => error_response "No valid response from primary URL" 502
    end
  else error_response "No valid response from primary URL" 502.

(** The handler up to the return statement it reaches; its value is the
    call of the constructor which that statement makes.  [handle] below
    runs the constructor. *)
Definition forward (net : nat → Client) (order : list nat)
    (CONFIG : Config) (request : Request) (path : string) : M ResponseCall :=
  log_data ← log_request request;
  let tasks := make_tasks net request log_data 0 (forward_urls CONFIG) [] in
  joined ← attempt (gather tasks true order);
  match joined with
  | Raise e =>
      logger (ForwardingFailed log_data (exn_str e));;
      mret (error_response "Forwarding failed" 500)
  | Ok responses => mret (respond responses)
  end.

(** What [forward] returns to the framework: the constructor of the
    response is run on the call of the return statement reached, outside
    any [try]. *)
Definition handle (net : nat → Client) (order : list nat)
    (CONFIG : Config) (request : Request) (path : string)
  : M Starlette.Response :=
  call ← forward net order CONFIG request path;
  lift (construct call).

(** ** Derived notions used in the statements *)

(** The body a read of the request yields in a state. *)
Definition body_in (request : Request) (w : World) : bytes :=
  default (req_stream request) (w_body w).

(** The request [forward_request] hands to the client for a destination,
    given the body it read. *)
Definition outbound_request (url : string) (request : Request)
    (body : bytes) : OutboundRequest :=
  {| out_method := req_method request;
     out_url := full_url url request;
     out_headers := outbound_headers request;
     out_content := body;
     out_follow_redirects := true |}.

(** The body is empty or it decodes: [log_request] gets past its
    [except] clause. *)
Definition decodable (body : bytes) : bool :=
  negb (bytes_truthy body) || Utf8.valid body.

(** The value of [body_data] for such a body. *)
Definition parsed_body (body : bytes) : option body_data :=
  if bytes_truthy body
  then match json_loads (str_of_bytes body) with
       | Some j => Some (BodyJson j)
       | None => Some (BodyText (str_of_bytes body))
       end
  else None.

(** [json.dumps] returns on the receipt of the body. *)
Definition serialisable (body : bytes) : bool :=
  match parsed_body body with
  | Some (BodyJson j) =>
      match json_dumps j with Some _ => true | None => false end
  | Some (BodyText _) | None => true
  end.

(** The receipt log event can be built and written for a body. *)
Definition loggable (body : bytes) : bool :=
  decodable body && serialisable body.

(** What [log_request] raises for a body that is not loggable. *)
Definition receipt_error (body : bytes) : exn :=
  if decodable body then RecursionError else UnicodeDecodeError.

Definition receipt (request : Request) (body : bytes) : LogData :=
  {| ld_method := req_method request;
     ld_url := url_str (req_url request);
     ld_client_ip := req_client request;
     ld_headers := req_headers request;
     ld_query_params := req_query_params request;
     ld_body := parsed_body body |}.

Definition task_outbound (body : bytes) (t : Task) : OutboundRequest :=
  outbound_request (task_url t) (task_request t) body.

Definition task_forwarding (t : Task) : LogRecord :=
  ForwardingRequest (task_log_data t)
    (full_url (task_url t) (task_request t)).

(** The list [responses] of a run: position [i] holds what the network
    answered to the request for the [i]-th configured URL. *)
Definition responses_for (net : nat → Client) (request : Request)
    (body : bytes) (urls : list string) : list pyval :=
  imap (λ i url, value (net i (outbound_request url request body))) urls.


(** A request whose body is the single byte FF, which is not UTF-8. *)
Definition binary_request : Request :=
  {| req_method := "POST";
     req_url := {| url_str := "http://proxy/upload";
                   url_path := "/upload";
                   url_query := EmptyString |};
     req_client := Some "10.0.0.7";
     req_headers := {[ "host" := "proxy" ]};
     req_query_params := ∅;
     req_stream := [xff] |}.

(** ** Concrete requests, responses and networks *)

(** A parser for the runs below, whose requests have no body: [json.loads]
    is not called in them. *)
Definition loads_nothing : string → option Empty_set := λ _, None.

(** [GET /api?a=1&b=2] without body. *)
Definition get_request : Request :=
  {| req_method := "GET";
     req_url := {| url_str := "http://proxy/api?a=1&b=2";
                   url_path := "/api";
                   url_query := "a=1&b=2" |};
     req_client := Some "10.0.0.7";
     req_headers := <["host" := "proxy"]> {[ "accept" := "*/*" ]};
     req_query_params := <["a" := "1"]> {[ "b" := "2" ]};
     req_stream := [] |}.


(** A 404 response with the body [{"msg":"not found"}]. *)
Definition not_found : HttpxResponse :=
  {| resp_status_code := 404;
     resp_headers :=
       <["content-type" := "application/json"]>
       (<["content-length" := "19"]>
       (<["content-encoding" := "gzip"]>
       {[ "x-trace-id" := "abc123" ]}));
     resp_content :=
       bytes_of_str
         ("{" +:+ json_quote "msg" +:+ ":" +:+ json_quote "not found" +:+ "}") |}.

Definition ok_response : HttpxResponse :=
  {| resp_status_code := 200;
     resp_headers := {[ "content-type" := "text/plain" ]};
     resp_content := bytes_of_str "ok" |}.

Definition timeout : exn := HTTPError "ReadTimeout" "timed out".
Definition refused : exn :=
  HTTPError "ConnectError" "All connection attempts failed".

(** Every destination answers 404. *)
Definition net_not_found : nat → Client := λ _ _, Ok not_found.

(** The primary times out, the others answer 200. *)
Definition net_primary_timeout : nat → Client :=
  λ i _, if Nat.eqb i 0 then Raise timeout else Ok ok_response.

(** Nothing answers in time. *)
Definition net_all_timeout : nat → Client := λ _ _, Raise timeout.

(** The second destination refuses the connection. *)
Definition net_second_refused : nat → Client :=
  λ i _, if Nat.eqb i 1 then Raise refused
         else if Nat.eqb i 0 then Ok not_found else Ok ok_response.

Definition one_url : Config := mkConfig ["http://primary/hook"].
Definition two_urls : Config :=
  mkConfig ["http://primary/hook"; "http://mirror/hook"].
Definition three_urls : list string :=
  ["http://primary/hook"; "http://mirror/hook"; "http://audit/in"].

Definition primary_outbound : OutboundRequest :=
  outbound_request "http://primary/hook" get_request [].

(** A client that finds the connection refused. *)
Definition refusing : Client := λ _, Raise refused.

(** ** Notions for the log and the outcome of a run *)

(** The one record a dispatch logs when its exchange is over: the response
    with its status code and size, under the full URL, or the error, under
    the configured URL. *)
Definition completion_record (client : Client) (url : string)
    (request : Request) (log_data : LogData) (body : bytes) : LogRecord :=
  match client (outbound_request url request body) with
  | Ok response =>
      ReceivedResponse log_data (full_url url request)
        (resp_status_code response) (length (resp_content response))
  | Raise e => ForwardingError log_data url (exn_str e)
  end.

Definition task_completion (body : bytes) (t : Task) : LogRecord :=
  completion_record (task_client t) (task_url t) (task_request t)
    (task_log_data t) body.

(** The records of the completions, in the order the dispatches complete.
    An index that names no destination completes nothing. *)
Definition completion_log (net : nat → Client) (request : Request)
    (log_data : LogData) (body : bytes) (urls : list string)
    (order : list nat) : list LogRecord :=
  omap (λ i, (λ url, completion_record (net i) url request log_data body)
               <$> urls !! i) order.


(** [get_request] sent by another client to another path. *)
Definition moved_request : Request :=
  {| req_method := "GET";
     req_url := {| url_str := "http://proxy/v2/other?a=1&b=2";
                   url_path := "/v2/other";
                   url_query := "a=1&b=2" |};
     req_client := None;
     req_headers := <["host" := "proxy"]> {[ "accept" := "*/*" ]};
     req_query_params := <["a" := "1"]> {[ "b" := "2" ]};
     req_stream := [] |}.

(** ** Notions for the response built by the constructor *)

(** The headers of the primary response without the three which the
    handler pops. *)
Definition sanitized (h : dict) : dict :=
  delete "transfer-encoding"
    (delete "content-length" (delete "content-encoding" h)).

(** The response built from a primary response whose headers can be
    encoded: body and status code of the primary response, its headers
    without the three, and the content-length of the body where the status
    code allows one. *)
Definition passed_on (r : HttpxResponse) : Starlette.Response :=
  {| Starlette.body := resp_content r;
     Starlette.status_code := resp_status_code r;
     Starlette.headers :=
       if Starlette.bodiless (resp_status_code r)
       then sanitized (resp_headers r)
       else <["content-length" :=
                Starlette.decimal (length (resp_content r))]>
              (sanitized (resp_headers r));
     Starlette.media_type := resp_headers r !! "content-type" |}.

(** The 47 bytes of [{"error": "No valid response from primary URL"}],
    written out. *)
Definition no_valid_response_body : bytes :=
  [
   x7b; x22; x65; x72; x72; x6f; x72; x22; x3a; x20; x22; x4e; x6f;
   x20; x76; x61; x6c; x69; x64; x20; x72; x65; x73; x70; x6f; x6e;
   x73; x65; x20; x66; x72; x6f; x6d; x20; x70; x72; x69; x6d; x61;
   x72; x79; x20; x55; x52; x4c; x22; x7d
  ].

(** The 502 response, written out. *)
Definition bad_gateway : Starlette.Response :=
  {| Starlette.body := no_valid_response_body;
     Starlette.status_code := 502;
     Starlette.headers :=
       <["content-length" := "47"]> {[ "content-type" := "application/json" ]};
     Starlette.media_type := Some "application/json" |}.

(** An encoder for the runs below, in which nothing is parsed. *)
Definition dumps_nothing : Empty_set → option string :=
  λ j, match j with end.

(** The characters U+65E5 U+672C as a [str]: six bytes of UTF-8. *)
Definition nihon : string := str_of_bytes [xe6; x97; xa5; xe6; x9c; xac].

(** A 200 response with a header value outside latin-1. *)
Definition kanji_response : HttpxResponse :=
  {| resp_status_code := 200;
     resp_headers :=
       <["content-type" := "text/plain"]> {[ "x-name" := nihon ]};
     resp_content := bytes_of_str "ok" |}.

Definition net_kanji : nat → Client := λ _ _, Ok kanji_response.

(** A 200 response that came compressed: the content-length it carries is
    the one of the compressed form, the content has five bytes. *)
Definition gzip_response : HttpxResponse :=
  {| resp_status_code := 200;
     resp_headers :=
       <["content-type" := "text/plain"]>
       (<["content-length" := "25"]>
       (<["content-encoding" := "gzip"]>
       {[ "x-trace-id" := "abc123" ]}));
     resp_content := bytes_of_str "hello" |}.

Definition net_gzip : nat → Client := λ _ _, Ok gzip_response.

(** A POST with the body [[[]]], for a parser that accepts it and an
    encoder that finds the value too deep. *)
Definition nested_request : Request :=
  {| req_method := "POST";
     req_url := {| url_str := "http://proxy/api";
                   url_path := "/api";
                   url_query := EmptyString |};
     req_client := Some "10.0.0.7";
     req_headers := {[ "host" := "proxy" ]};
     req_query_params := ∅;
     req_stream := bytes_of_str "[[]]" |}.

Definition loads_nested : string → option unit :=
  λ s, if String.eqb s "[[]]" then Some () else None.

Definition dumps_too_deep : unit → option string := λ _, None.

(** ** What the definitions compute *)

Ltac run := unfold mbind, M_bind, mret, M_ret, raise, lift, logger, send,
  try_except, attempt, emit; simpl.

Lemma request_body_eq request w :
  request_body request w =
  (Ok (body_in request w),
   mkWorld (Some (body_in request w)) (w_log w) (w_sent w)).
Proof.
  unfold request_body, body_in. destruct w as [[b|] lg st]; reflexivity.
Qed.

Lemma body_in_cached request b lg st :
  body_in request (mkWorld (Some b) lg st) = b.
Proof. reflexivity. Qed.

Lemma log_request_ok request w :
  loggable (body_in request w) = true →
  log_request request w =
  (Ok (receipt request (body_in request w)),
   mkWorld (Some (body_in request w))
     (w_log w ++ [RequestReceived (receipt request (body_in request w))])
     (w_sent w)).
Proof.
  intros [Hd Hs]%andb_prop. unfold log_request. run.
  rewrite request_body_eq.
  unfold receipt, serialisable, parsed_body, decodable, decode, loads, dumps
    in *.
  destruct (bytes_truthy (body_in request w)); simpl in *; [|reflexivity].
  rewrite Hd. run.
  destruct (json_loads (str_of_bytes (body_in request w))); run;
    [|reflexivity].
  destruct (json_dumps _); [reflexivity|discriminate].
Qed.

Lemma log_request_raises request w :
  loggable (body_in request w) = false →
  log_request request w =
  (Raise (receipt_error (body_in request w)),
   mkWorld (Some (body_in request w)) (w_log w) (w_sent w)).
Proof.
  intros Hl. unfold log_request. run. rewrite request_body_eq.
  unfold loggable, receipt_error, serialisable, parsed_body, decodable,
    decode, loads, dumps in *.
  destruct (bytes_truthy (body_in request w)); simpl in *; [|discriminate].
  destruct (Utf8.valid (body_in request w)); simpl in *; [|reflexivity].
  run. destruct (json_loads (str_of_bytes (body_in request w))); run;
    [|discriminate].
  destruct (json_dumps _); [discriminate|reflexivity].
Qed.

Lemma start_eq url request log_data w :
  start url request log_data w =
  (Ok (outbound_request url request (body_in request w)),
   mkWorld (Some (body_in request w))
     (w_log w ++ [ForwardingRequest log_data (full_url url request)])
     (w_sent w ++ [outbound_request url request (body_in request w)])).
Proof. unfold start. run. rewrite request_body_eq. reflexivity. Qed.

Lemma settle_fst client url log_data o :
  fst (settle client url log_data o) = client o.
Proof. unfold settle. destruct (client o); reflexivity. Qed.

(** [forward_request] is [start] followed by [resume]. *)
Lemma forward_request_split client url request log_data w :
  forward_request client url request log_data w =
  (start url request log_data ≫= resume client url log_data) w.
Proof.
  unfold mbind, M_bind. rewrite start_eq.
  unfold forward_request, client_request, forwarding_error, resume, settle.
  run. rewrite request_body_eq. unfold outbound_request.
  destruct (client _); reflexivity.
Qed.

(** *** The task list follows the configured list *)

Lemma make_tasks_from net request log_data i urls tasks :
  i ≠ 0 →
  make_tasks net request log_data i urls tasks =
  tasks ++ imap (λ j url, mkTask (net (i + j)) url request log_data) urls.
Proof.
  revert i tasks. induction urls as [|url urls IH]; intros i tasks Hi.
  - simpl. by rewrite app_nil_r.
  - simpl. destruct i as [|i]; [done|]. simpl.
    rewrite IH by done. rewrite <- app_assoc. simpl.
    rewrite Nat.add_0_r. do 2 f_equal.
    apply imap_ext. intros j x _. simpl. do 2 f_equal. lia.
Qed.

Lemma make_tasks_eq net request log_data urls :
  make_tasks net request log_data 0 urls [] =
  imap (λ i url, mkTask (net i) url request log_data) urls.
Proof.
  destruct urls as [|url urls]; [done|]. simpl.
  rewrite make_tasks_from by done. simpl. f_equal.
Qed.

(** *** Starting the tasks *)

Lemma start_all_cached tasks body lg st :
  start_all tasks (mkWorld (Some body) lg st) =
  ((λ t, (t, Ok (task_outbound body t))) <$> tasks,
   mkWorld (Some body) (lg ++ (task_forwarding <$> tasks))
     (st ++ (task_outbound body <$> tasks))).
Proof.
  revert lg st. induction tasks as [|t ts IH]; intros lg st.
  - simpl. by rewrite !app_nil_r.
  - cbn [start_all]. rewrite start_eq. cbn [w_log w_sent w_body body_in default].
    rewrite IH. rewrite <- !app_assoc. reflexivity.
Qed.

(** Resuming children only adds to the log. *)
Lemma complete_frame children order w :
  w_body (foldl (complete children) w order) = w_body w ∧
  w_sent (foldl (complete children) w order) = w_sent w.
Proof.
  revert w. induction order as [|i order IH]; intros w; [done|].
  simpl. destruct (IH (complete children w i)) as [-> ->].
  unfold complete, resume.
  destruct (children !! i) as [[t [o|e]]|]; [|done..].
  destruct (settle _ _ _ _). done.
Qed.

(** *** The join *)

(** With [return_exceptions=True] the join returns, whatever the tasks
    did, the list of their outcomes in the order of [tasks]. *)
Lemma gather_true_cached tasks order body lg st :
  ∃ lg',
    gather tasks true order (mkWorld (Some body) lg st) =
    (Ok ((λ t, value (task_client t (task_outbound body t))) <$> tasks),
     mkWorld (Some body) lg' (st ++ (task_outbound body <$> tasks))).
Proof.
  unfold gather. rewrite start_all_cached.
  set (children := (λ t, (t, Ok (task_outbound body t))) <$> tasks).
  set (w1 := mkWorld _ _ _).
  destruct (complete_frame children order w1) as [Hb Hs].
  destruct (foldl (complete children) w1 order) as [b' lg' st'].
  simpl in *. subst b' st'. exists lg'. f_equal. f_equal.
  unfold children. rewrite <- !list_fmap_compose.
  apply list_fmap_ext. intros _ t _. simpl. by rewrite settle_fst.
Qed.

(** *** The handler *)

Lemma forward_loggable net order CONFIG request path w :
  loggable (body_in request w) = true →
  ∃ lg',
    forward net order CONFIG request path w =
    (Ok (respond (responses_for net request (body_in request w)
                    (forward_urls CONFIG))),
     mkWorld (Some (body_in request w)) lg'
       (w_sent w ++
        ((λ url, outbound_request url request (body_in request w))
           <$> forward_urls CONFIG))).
Proof.
  intros Hl. unfold forward.
  unfold mbind at 1. unfold M_bind at 1. rewrite (log_request_ok _ _ Hl).
  set (body := body_in request w). set (ld := receipt request body).
  rewrite make_tasks_eq.
  set (tasks := imap _ _).
  destruct (gather_true_cached tasks order body
              (w_log w ++ [RequestReceived ld]) (w_sent w)) as [lg' Hg].
  unfold mbind, M_bind, attempt. rewrite Hg. exists lg'.
  unfold mret, M_ret. f_equal.
  - do 2 f_equal. unfold tasks, responses_for.
    rewrite fmap_imap. apply imap_ext. done.
  - do 2 f_equal. unfold tasks. rewrite fmap_imap.
    rewrite <- (imap_const (λ url, outbound_request url request body)).
    apply imap_ext. done.
Qed.

Lemma forward_unloggable net order CONFIG request path w :
  loggable (body_in request w) = false →
  forward net order CONFIG request path w =
  (Raise (receipt_error (body_in request w)),
   mkWorld (Some (body_in request w)) (w_log w) (w_sent w)).
Proof.
  intros Hl. unfold forward.
  unfold mbind at 1. unfold M_bind at 1. by rewrite (log_request_raises _ _ Hl).
Qed.

Lemma receipt_error_not_http body cls detail :
  receipt_error body ≠ HTTPError cls detail.
Proof. unfold receipt_error. by destruct (decodable body). Qed.

(** *** The selection *)

Lemma respond_response responses r :
  responses !! 0 = Some (VResponse r) → respond responses = primary_result r.
Proof. destruct responses as [|v vs]; [done|]. simpl. by intros [= ->]. Qed.

Lemma respond_exception responses e :
  responses !! 0 = Some (VException e) →
  respond responses = error_response "No valid response from primary URL" 502.
Proof. destruct responses as [|v vs]; [done|]. simpl. by intros [= ->]. Qed.

Lemma respond_nil :
  respond [] = error_response "No valid response from primary URL" 502.
Proof. reflexivity. Qed.

Lemma respond_head responses1 responses2 :
  responses1 !! 0 = responses2 !! 0 → respond responses1 = respond responses2.
Proof.
  destruct responses1 as [|v1 ?], responses2 as [|v2 ?]; try done.
  simpl. by intros [= ->].
Qed.

Lemma primary_result_not_error r msg code :
  primary_result r ≠ error_response msg code.
Proof. done. Qed.

Lemma respond_not_500 responses :
  respond responses ≠ error_response "Forwarding failed" 500.
Proof.
  unfold respond.
  destruct (list_truthy responses); [|done].
  destruct (responses !! 0) as [[r|e]|]; done.
Qed.

(** *** Runs of the handler on a fresh request *)

Lemma responses_for_lookup net request body urls i :
  responses_for net request body urls !! i =
  (λ url, value (net i (outbound_request url request body))) <$> urls !! i.
Proof. unfold responses_for. by rewrite list_lookup_imap. Qed.

(** The requests a run hands to the client: none when the receipt cannot
    be logged, else one per configured URL, in the order of the list. *)
Lemma forward_sent net order CONFIG request path :
  w_sent (snd (forward net order CONFIG request path initial)) =
  if loggable (req_stream request)
  then (λ url, outbound_request url request (req_stream request))
         <$> forward_urls CONFIG
  else [].
Proof.
  destruct (loggable (req_stream request)) eqn:Hl.
  - destruct (forward_loggable net order CONFIG request path initial Hl)
      as [lg' ->]. reflexivity.
  - by rewrite forward_unloggable.
Qed.

(** When a run hands a first request to the client, it is the request for
    the first configured URL, and the run returns what [respond] makes of
    the joined outcomes. *)
Lemma forward_dispatched net order CONFIG request path o :
  w_sent (snd (forward net order CONFIG request path initial)) !! 0 = Some o →
  ∃ url,
    forward_urls CONFIG !! 0 = Some url ∧
    o = outbound_request url request (req_stream request) ∧
    fst (forward net order CONFIG request path initial) =
    Ok (respond (responses_for net request (req_stream request)
                   (forward_urls CONFIG))).
Proof.
  rewrite forward_sent. destruct (loggable (req_stream request)) eqn:Hl; [|done].
  rewrite list_lookup_fmap. intros Ho.
  destruct (forward_urls CONFIG !! 0) as [url|] eqn:Hu; [|done].
  injection Ho as <-. exists url. split_and!; [done..|].
  destruct (forward_loggable net order CONFIG request path initial Hl)
    as [lg' ->]. reflexivity.
Qed.

(** A run whose primary dispatch raised answers 502. *)
Lemma forward_primary_raised net order CONFIG request path o e :
  w_sent (snd (forward net order CONFIG request path initial)) !! 0 = Some o →
  net 0 o = Raise e →
  fst (forward net order CONFIG request path initial) =
  Ok (error_response "No valid response from primary URL" 502).
Proof.
  intros Ho Hnet.
  destruct (forward_dispatched _ _ _ _ _ _ Ho) as (url & Hu & -> & ->).
  f_equal. apply (respond_exception _ e).
  by rewrite responses_for_lookup, Hu; simpl; rewrite Hnet.
Qed.

(** With [return_exceptions=True] the join always returns a list, one
    element per task. *)
Lemma gather_true_returns tasks order w :
  ∃ responses w',
    gather tasks true order w = (Ok responses, w') ∧
    length responses = length tasks.
Proof.
  unfold gather.
  assert (∀ ts w0, length (fst (start_all ts w0)) = length ts) as Hlen.
  { induction ts as [|t ts IH]; intros w0; [done|].
    cbn [start_all]. destruct (start _ _ _ w0) as [r w1].
    specialize (IH w1). destruct (start_all ts w1) as [rs w2].
    simpl in *. by rewrite IH. }
  specialize (Hlen tasks w).
  destruct (start_all tasks w) as [children w1]. simpl in Hlen.
  eexists _, _. split; [reflexivity|].
  by rewrite !length_fmap.
Qed.

(** C10: the join is made with [return_exceptions=True], so it returns a
    list whatever the tasks raise, and the handler never answers with the
    500 response of its [except] clause, nor lets the exception of a
    dispatch escape; an exception raised by the dispatch of index 0 leads
    to the 502 response. *)
Theorem dispatch_failure_never_500 net order CONFIG request path :
  (∀ tasks order' w, ∃ responses w',
      gather tasks true order' w = (Ok responses, w')) ∧
  (∀ w, fst (forward net order CONFIG request path w) ≠
        Ok (error_response "Forwarding failed" 500)) ∧
  (∀ w cls detail, fst (forward net order CONFIG request path w) ≠
        Raise (HTTPError cls detail)) ∧
  (∀ o e,
     w_sent (snd (forward net order CONFIG request path initial)) !! 0
     = Some o →
     net 0 o = Raise e →
     fst (forward net order CONFIG request path initial) =
     Ok (error_response "No valid response from primary URL" 502)).
Proof.
  split_and!.
  - intros tasks order' w.
    destruct (gather_true_returns tasks order' w) as (rs & w' & H & _).
    by exists rs, w'.
  - intros w. destruct (loggable (body_in request w)) eqn:Hl.
    + destruct (forward_loggable net order CONFIG request path w Hl)
        as [lg' ->].
      simpl. intros [= H]. by apply respond_not_500 in H.
    + by rewrite forward_unloggable.
  - intros w cls detail. destruct (loggable (body_in request w)) eqn:Hl.
    + by destruct (forward_loggable net order CONFIG request path w Hl)
        as [lg' ->].
    + rewrite forward_unloggable by done. simpl. intros [= H].
      by apply receipt_error_not_http in H.
  - intros o e. apply forward_primary_raised.
Qed.

(** The join from any state, for tasks on one request. *)
Lemma gather_true_eq tasks order request w :
  Forall (λ t, task_request t = request) tasks →
  ∃ w',
    gather tasks true order w =
    (Ok ((λ t, value (task_client t (task_outbound (body_in request w) t)))
           <$> tasks), w').
Proof.
  intros Hreq. destruct w as [[b|] lg st].
  - destruct (gather_true_cached tasks order b lg st) as [lg' ->].
    by eexists.
  - destruct tasks as [|t ts]; [by eexists|].
    apply Forall_cons in Hreq as [Ht _].
    unfold gather. cbn [start_all]. rewrite start_eq.
    cbn [w_log w_sent w_body]. rewrite start_all_cached.
    eexists. f_equal. f_equal. rewrite !fmap_cons. f_equal.
    + simpl. rewrite settle_fst. unfold task_outbound. by rewrite Ht.
    + rewrite <- !list_fmap_compose. apply list_fmap_ext.
      intros _ t' _. simpl. rewrite settle_fst. by rewrite Ht.
Qed.

Lemma make_tasks_request net request log_data urls :
  Forall (λ t, task_request t = request)
    (make_tasks net request log_data 0 urls []).
Proof.
  rewrite make_tasks_eq. apply Forall_forall. intros t Ht.
  apply elem_of_lookup_imap in Ht as (i & url & -> & _). done.
Qed.

(** C8: the list the join returns has, at each index, the outcome of the
    dispatch to the URL of that index in the configured list, whatever the
    order in which the dispatches complete.  With three URLs of which the
    second cannot be reached, the list holds the exception at index 1 and
    the responses of the other two at indices 0 and 2.  The response to
    the caller is a function of the element at index 0. *)
Theorem outcomes_keep_positions net request log_data urls order w :
  ∃ responses w',
    gather (make_tasks net request log_data 0 urls []) true order w =
    (Ok responses, w') ∧
    length responses = length urls ∧
    (∀ i url, urls !! i = Some url →
       responses !! i =
       Some (value (net i (outbound_request url request (body_in request w))))) ∧
    (∀ u0 u1 u2 r0 e r2,
       urls = [u0; u1; u2] →
       net 0 (outbound_request u0 request (body_in request w)) = Ok r0 →
       net 1 (outbound_request u1 request (body_in request w)) = Raise e →
       net 2 (outbound_request u2 request (body_in request w)) = Ok r2 →
       responses = [VResponse r0; VException e; VResponse r2] ∧
       respond responses = primary_result r0) ∧
    (∀ other, other !! 0 = responses !! 0 → respond other = respond responses).
Proof.
  destruct (gather_true_eq _ order request w
              (make_tasks_request net request log_data urls)) as [w' Hg].
  rewrite make_tasks_eq in *. rewrite fmap_imap in Hg.
  eexists _, w'. split; [exact Hg|]. split_and!.
  - by rewrite length_imap.
  - intros i url Hi. rewrite list_lookup_imap, Hi. reflexivity.
  - intros u0 u1 u2 r0 e r2 -> H0 H1 H2. simpl.
    unfold task_outbound. simpl. rewrite H0, H1, H2. done.
  - intros other. apply respond_head.
Qed.

(** *** The outbound requests *)

(** What one call of [forward_request] does to the state: the body is
    kept on the request object and one request is with the client. *)
Lemma forward_request_sent client url request log_data w :
  w_body (snd (forward_request client url request log_data w)) =
  Some (body_in request w) ∧
  w_sent (snd (forward_request client url request log_data w)) =
  w_sent w ++ [outbound_request url request (body_in request w)].
Proof.
  rewrite forward_request_split. unfold mbind, M_bind.
  rewrite start_eq. unfold resume. by destruct (settle _ _ _ _).
Qed.


(** *** Failures *)

(** C4, as the code has it: when the client raises for the request of a
    dispatch, [forward_request] logs a [forwarding_error] record with the
    destination URL and the text of the exception, and raises the same
    exception into its caller; it is the join with
    [return_exceptions=True] that turns the exception into a value of the
    list it returns. *)
Theorem transport_error_logged_and_reraised
    client url request log_data w e :
  client (outbound_request url request (body_in request w)) = Raise e →
  ∃ w',
    forward_request client url request log_data w = (Raise e, w') ∧
    last (w_log w') = Some (ForwardingError log_data url (exn_str e)) ∧
    (∀ order, ∃ w'',
       gather [mkTask client url request log_data] true order w =
       (Ok [VException e], w'')).
Proof.
  intros He. rewrite forward_request_split. unfold mbind, M_bind.
  rewrite start_eq. unfold resume, settle. rewrite He.
  eexists. split_and!; [reflexivity| |].
  - simpl. by rewrite last_snoc.
  - intros order.
    destruct (gather_true_eq [mkTask client url request log_data] order
                request w) as [w'' ->]; [by repeat constructor|].
    exists w''. simpl. unfold task_outbound. simpl. by rewrite He.
Qed.

(** A body that is not JSON but decodes is logged as text: the failure
    of [json.loads] stays inside [log_request]. *)
Lemma log_request_not_json request w :
  bytes_truthy (body_in request w) = true →
  Utf8.valid (body_in request w) = true →
  json_loads (str_of_bytes (body_in request w)) = None →
  ∃ log_data w',
    log_request request w = (Ok log_data, w') ∧
    ld_body log_data = Some (BodyText (str_of_bytes (body_in request w))).
Proof.
  intros Ht Hv Hj. rewrite log_request_ok.
  - eexists _, _. split; [reflexivity|]. simpl.
    unfold parsed_body. by rewrite Ht, Hj.
  - unfold loggable, decodable, serialisable, parsed_body.
    by rewrite Hv, Ht, Hj, orb_true_r.
Qed.

(** C9, at the body FF: both decodes in [log_request] raise, the second
    one inside the [except] clause, so [log_request] raises; the handler
    raises with it before any record is logged and before any request is
    handed to the client. *)
Theorem receipt_log_failure_aborts net order CONFIG path :
  log_request binary_request initial =
  (Raise UnicodeDecodeError, mkWorld (Some [xff]) [] []) ∧
  forward net order CONFIG binary_request path initial =
  (Raise UnicodeDecodeError, mkWorld (Some [xff]) [] []).
Proof.
  split.
  - by rewrite log_request_raises.
  - by rewrite forward_unloggable.
Qed.

(** With no URL configured, a request whose receipt is logged is answered
    502 and nothing is handed to the client. *)
Lemma forward_no_destination net order CONFIG request path :
  forward_urls CONFIG = [] →
  loggable (req_stream request) = true →
  fst (forward net order CONFIG request path initial) =
  Ok (error_response "No valid response from primary URL" 502) ∧
  w_sent (snd (forward net order CONFIG request path initial)) = [].
Proof.
  intros Hc Hl.
  destruct (forward_loggable net order CONFIG request path initial Hl)
    as [lg' ->].
  by rewrite Hc.
Qed.

(** C5, at the body FF with an empty list of URLs: the handler raises
    out of [log_request] and returns no response, so not the 502 one. *)
Theorem no_destination_binary_body net order path :
  fst (forward net order (mkConfig []) binary_request path initial) =
  Raise UnicodeDecodeError ∧
  fst (forward net order (mkConfig []) binary_request path initial) ≠
  Ok (error_response "No valid response from primary URL" 502) ∧
  w_sent (snd (forward net order (mkConfig []) binary_request path initial))
  = [].
Proof. by rewrite forward_unloggable. Qed.

(** ** Beyond the claims: the log and the outcome of whole runs *)

Lemma settle_snd client url log_data request body :
  snd (settle client url log_data (outbound_request url request body)) =
  [completion_record client url request log_data body].
Proof.
  unfold settle, completion_record.
  by destruct (client (outbound_request url request body)).
Qed.

(** Resuming the children of started tasks logs their completion records,
    in the order of the resumptions. *)
Lemma complete_log_cached tasks body order w :
  w_log (foldl (complete ((λ t, (t, Ok (task_outbound body t))) <$> tasks))
           w order) =
  w_log w ++ omap (λ i, task_completion body <$> tasks !! i) order.
Proof.
  revert w. induction order as [|i order IH]; intros w.
  - simpl. by rewrite app_nil_r.
  - cbn [foldl]. rewrite IH. unfold complete.
    rewrite list_lookup_fmap. csimpl.
    destruct (tasks !! i) as [t|]; simpl; [|done].
    unfold resume, task_outbound.
    pose proof (settle_snd (task_client t) (task_url t) (task_log_data t)
                  (task_request t) body) as Hs.
    destruct (settle _ _ _ _) as [r recs]. simpl in *. subst recs.
    simpl. by rewrite <- app_assoc.
Qed.

(** The join, with the whole state it leaves. *)
Lemma gather_true_run tasks order body lg st :
  gather tasks true order (mkWorld (Some body) lg st) =
  (Ok ((λ t, value (task_client t (task_outbound body t))) <$> tasks),
   mkWorld (Some body)
     (lg ++ (task_forwarding <$> tasks) ++
      omap (λ i, task_completion body <$> tasks !! i) order)
     (st ++ (task_outbound body <$> tasks))).
Proof.
  destruct (gather_true_cached tasks order body lg st) as [lg' Hg].
  rewrite Hg. f_equal. f_equal.
  assert (w_log (snd (gather tasks true order (mkWorld (Some body) lg st)))
          = lg') as <- by (by rewrite Hg).
  unfold gather. rewrite start_all_cached. simpl.
  rewrite complete_log_cached. simpl. by rewrite <- app_assoc.
Qed.

(** A run whose receipt is logged, with the whole state it leaves. *)
Lemma forward_run net order CONFIG request path w :
  loggable (body_in request w) = true →
  forward net order CONFIG request path w =
  (Ok (respond (responses_for net request (body_in request w)
                  (forward_urls CONFIG))),
   mkWorld (Some (body_in request w))
     (w_log w ++
      RequestReceived (receipt request (body_in request w)) ::
      ((λ url, ForwardingRequest (receipt request (body_in request w))
                 (full_url url request)) <$> forward_urls CONFIG) ++
      completion_log net request (receipt request (body_in request w))
        (body_in request w) (forward_urls CONFIG) order)
     (w_sent w ++
      ((λ url, outbound_request url request (body_in request w))
         <$> forward_urls CONFIG))).
Proof.
  intros Hl.
  destruct (forward_loggable net order CONFIG request path w Hl) as [lg' Hf].
  rewrite Hf. f_equal. f_equal.
  assert (w_log (snd (forward net order CONFIG request path w)) = lg')
    as <- by (by rewrite Hf).
  unfold forward.
  unfold mbind at 1. unfold M_bind at 1. rewrite (log_request_ok _ _ Hl).
  rewrite make_tasks_eq. unfold mbind, M_bind, attempt.
  rewrite gather_true_run. simpl. rewrite <- app_assoc. simpl.
  do 2 f_equal. f_equal.
  - rewrite fmap_imap.
    rewrite <- (imap_const (λ url, ForwardingRequest _ (full_url url request))).
    by apply imap_ext.
  - unfold completion_log. apply list_omap_ext, Forall2_same_length_lookup.
    split; [done|]. intros i j1 j2 H1 H2. simplify_eq.
    rewrite list_lookup_imap. by destruct (forward_urls CONFIG !! j1).
Qed.


Lemma completion_record_not_failed client url request log_data body d e :
  completion_record client url request log_data body ≠ ForwardingFailed d e.
Proof.
  unfold completion_record.
  by destruct (client (outbound_request url request body)).
Qed.

(** X4: the [forwarding_failed] record of the [except] clause around the
    join is never logged. *)
Theorem forwarding_failed_never_logged net order CONFIG request path d e :
  ForwardingFailed d e ∉
  w_log (snd (forward net order CONFIG request path initial)).
Proof.
  destruct (loggable (req_stream request)) eqn:Hl.
  - rewrite forward_run by done. simpl.
    rewrite not_elem_of_cons, not_elem_of_app. split_and!; [done| |].
    + intros (url & ? & _)%list_elem_of_fmap. done.
    + unfold completion_log.
      intros (i & _ & Hi)%list_elem_of_omap.
      destruct (forward_urls CONFIG !! i) as [url|]; [|done].
      simpl in Hi. injection Hi as Hi.
      by apply completion_record_not_failed in Hi.
  - rewrite forward_unloggable by done. simpl. apply not_elem_of_nil.
Qed.

Lemma outbound_request_same url request1 request2 body :
  req_method request1 = req_method request2 →
  req_headers request1 = req_headers request2 →
  url_query (req_url request1) = url_query (req_url request2) →
  outbound_request url request1 body = outbound_request url request2 body.
Proof.
  intros Hm Hh Hq.
  unfold outbound_request, full_url, outbound_headers.
  by rewrite Hm, Hh, Hq.
Qed.


(** X8: the result of the handler and the requests it hands to the client
    depend on the method, the headers, the query string and the body of the
    inbound request only: two requests that agree on these, whatever their
    paths, their client addresses and the completion orders, get the same
    result and cause the same outbound requests. *)
Theorem result_ignores_path_and_client
    net order1 order2 CONFIG request1 request2 path1 path2 :
  req_method request1 = req_method request2 →
  req_headers request1 = req_headers request2 →
  url_query (req_url request1) = url_query (req_url request2) →
  req_stream request1 = req_stream request2 →
  fst (forward net order1 CONFIG request1 path1 initial) =
  fst (forward net order2 CONFIG request2 path2 initial) ∧
  w_sent (snd (forward net order1 CONFIG request1 path1 initial)) =
  w_sent (snd (forward net order2 CONFIG request2 path2 initial)).
Proof.
  intros Hm Hh Hq Hb.
  assert (∀ url, outbound_request url request1 (req_stream request1) =
                 outbound_request url request2 (req_stream request2)) as Ho.
  { intros url. rewrite Hb. by apply outbound_request_same. }
  assert (loggable (body_in request1 initial) =
          loggable (body_in request2 initial)) as Hl1
    by (change (loggable (req_stream request1) =
                loggable (req_stream request2)); by rewrite Hb).
  destruct (loggable (body_in request2 initial)) eqn:Hl2.
  - rewrite !forward_run by done. simpl.
    split.
    + f_equal. f_equal. unfold responses_for. apply imap_ext.
      intros i url _. simpl. by rewrite Ho.
    + apply list_fmap_ext. intros _ url _. apply Ho.
  - rewrite !forward_unloggable by done. unfold body_in. simpl.
    by rewrite Hb.
Qed.

(** ** The response built by the constructor *)

Lemma handle_fst net order CONFIG request path w :
  fst (handle net order CONFIG request path w) =
  match fst (forward net order CONFIG request path w) with
  | Ok call => construct call
  | Raise e => Raise e
  end.
Proof.
  unfold handle, mbind, M_bind, lift.
  by destruct (forward net order CONFIG request path w) as [[call|e] w'].
Qed.

Lemma handle_snd net order CONFIG request path w :
  snd (handle net order CONFIG request path w) =
  snd (forward net order CONFIG request path w).
Proof.
  unfold handle, mbind, M_bind, lift.
  by destruct (forward net order CONFIG request path w) as [[call|e] w'].
Qed.

Lemma construct_bad_gateway :
  construct (error_response "No valid response from primary URL" 502) =
  Ok bad_gateway.
Proof. vm_compute. reflexivity. Qed.

Lemma sanitized_lookup h k :
  sanitized h !! k =
  if bool_decide (k = "content-encoding" ∨ k = "content-length" ∨
                  k = "transfer-encoding")
  then None else h !! k.
Proof.
  unfold sanitized. case_bool_decide as Hk.
  - destruct Hk as [->| [->| ->]].
    + rewrite lookup_delete_ne by done. rewrite lookup_delete_ne by done.
      apply lookup_delete_eq.
    + rewrite lookup_delete_ne by done. apply lookup_delete_eq.
    + apply lookup_delete_eq.
  - rewrite !lookup_delete_ne; naive_solver.
Qed.

(** The constructor on the call made for a primary response: it raises
    when a header cannot be encoded, and builds [passed_on] otherwise. *)
Lemma construct_primary_result r :
  construct (primary_result r) =
  if Starlette.encodable (sanitized (resp_headers r))
  then Ok (passed_on r)
  else Raise UnicodeEncodeError.
Proof.
  unfold construct, Starlette.new, Starlette.init_headers. simpl.
  fold (sanitized (resp_headers r)).
  destruct (Starlette.encodable (sanitized (resp_headers r))); [|done].
  unfold Starlette.populate, passed_on.
  rewrite !sanitized_lookup. simpl.
  destruct (Starlette.bodiless (resp_status_code r));
    destruct (resp_headers r !! "content-type"); done.
Qed.

Lemma forward_primary_ok net order CONFIG request path o primary :
  w_sent (snd (forward net order CONFIG request path initial)) !! 0 = Some o →
  net 0 o = Ok primary →
  fst (forward net order CONFIG request path initial) =
  Ok (primary_result primary).
Proof.
  intros Ho Hnet.
  destruct (forward_dispatched _ _ _ _ _ _ Ho) as (url & Hu & -> & ->).
  f_equal. apply respond_response.
  by rewrite responses_for_lookup, Hu; simpl; rewrite Hnet.
Qed.

Lemma get_request_sent net order CONFIG path :
  w_sent (snd (forward net order CONFIG get_request path initial)) =
  (λ url, outbound_request url get_request []) <$> forward_urls CONFIG.
Proof. by rewrite forward_sent. Qed.

(** C1, at a primary response with a header value outside latin-1: the
    value is a [str] that httpx decoded from UTF-8; the dispatch ends in the
    200 response and the handler reaches the return statement for the
    primary response, but the constructor of that statement raises
    [UnicodeEncodeError] when it encodes the headers, outside any [try], and
    the handler raises with it instead of returning the status code and the
    body of the primary response. *)
Theorem non_latin1_header_aborts order path :
  Utf8.valid (bytes_of_str nihon) = true ∧
  Starlette.latin1 nihon = false ∧
  w_sent (snd (handle net_kanji order one_url get_request path initial)) !! 0
  = Some primary_outbound ∧
  net_kanji 0 primary_outbound = Ok kanji_response ∧
  fst (forward net_kanji order one_url get_request path initial) =
  Ok (primary_result kanji_response) ∧
  fst (handle net_kanji order one_url get_request path initial) =
  Raise UnicodeEncodeError.
Proof.
  assert (w_sent (snd (forward net_kanji order one_url get_request path
                         initial)) !! 0 = Some primary_outbound) as Ho
    by (by rewrite get_request_sent).
  split_and!.
  - reflexivity.
  - reflexivity.
  - by rewrite handle_snd.
  - reflexivity.
  - by apply forward_primary_ok with primary_outbound.
  - rewrite handle_fst.
    rewrite (forward_primary_ok _ _ _ _ _ _ kanji_response Ho) by done.
    by rewrite construct_primary_result.
Qed.

(** C2: two runs on the same request, with configurations that have the
    same first URL, in which the network gives the same outcome to the
    request for that URL and any outcomes to the others, under any two
    completion orders, end in the same result, at the return statement and
    after the constructor; and when the primary dispatch raises (a timeout,
    say), both runs answer with the synthesized response: status code 502,
    body [{"error": "No valid response from primary URL"}], content type
    application/json, whatever the other destinations did. *)
Theorem response_depends_on_primary_only
    net1 net2 order1 order2 CONFIG1 CONFIG2 request path :
  forward_urls CONFIG1 !! 0 = forward_urls CONFIG2 !! 0 →
  (∀ url, forward_urls CONFIG1 !! 0 = Some url →
     net1 0 (outbound_request url request (req_stream request)) =
     net2 0 (outbound_request url request (req_stream request))) →
  fst (forward net1 order1 CONFIG1 request path initial) =
  fst (forward net2 order2 CONFIG2 request path initial) ∧
  fst (handle net1 order1 CONFIG1 request path initial) =
  fst (handle net2 order2 CONFIG2 request path initial) ∧
  (∀ o e,
     w_sent (snd (forward net1 order1 CONFIG1 request path initial)) !! 0
     = Some o →
     net1 0 o = Raise e →
     fst (forward net1 order1 CONFIG1 request path initial) =
     Ok (error_response "No valid response from primary URL" 502) ∧
     fst (forward net2 order2 CONFIG2 request path initial) =
     Ok (error_response "No valid response from primary URL" 502) ∧
     ∃ response,
       fst (handle net1 order1 CONFIG1 request path initial) = Ok response ∧
       fst (handle net2 order2 CONFIG2 request path initial) = Ok response ∧
       Starlette.status_code response = 502%Z ∧
       Starlette.body response = no_valid_response_body ∧
       str_of_bytes (Starlette.body response) =
       "{" +:+ dquote +:+ "error" +:+ dquote +:+ ": " +:+ dquote +:+
       "No valid response from primary URL" +:+ dquote +:+ "}" ∧
       Starlette.headers response !! "content-type" =
       Some "application/json").
Proof.
  intros Hurl Hsame.
  assert (fst (forward net1 order1 CONFIG1 request path initial) =
          fst (forward net2 order2 CONFIG2 request path initial)) as Heq.
  { destruct (loggable (req_stream request)) eqn:Hl.
    - destruct (forward_loggable net1 order1 CONFIG1 request path initial Hl)
        as [lg1 ->].
      destruct (forward_loggable net2 order2 CONFIG2 request path initial Hl)
        as [lg2 ->].
      simpl. f_equal. apply respond_head.
      rewrite !responses_for_lookup, <- Hurl.
      destruct (forward_urls CONFIG1 !! 0) as [url|] eqn:Hu; [|done].
      simpl. f_equal. f_equal. by apply Hsame.
    - by rewrite !forward_unloggable. }
  split; [done|]. split; [by rewrite !handle_fst, Heq|].
  intros o e Ho Hnet.
  pose proof (forward_primary_raised _ _ _ _ _ _ _ Ho Hnet) as H1.
  split; [done|]. split; [by rewrite <- Heq|].
  exists bad_gateway. rewrite !handle_fst, <- Heq, H1.
  by rewrite construct_bad_gateway.
Qed.

(** C6, at the body FF with two URLs configured: the handler raises out of
    [log_request] before it builds any task, and neither destination is
    handed a request. *)
Theorem binary_body_reaches_no_destination net order path :
  length (forward_urls two_urls) = 2 ∧
  fst (handle net order two_urls binary_request path initial) =
  Raise UnicodeDecodeError ∧
  w_sent (snd (handle net order two_urls binary_request path initial)) = [].
Proof.
  rewrite handle_fst, handle_snd. by rewrite forward_unloggable.
Qed.

(** C7, as the code has it: for a primary response whose headers, without
    the three the handler pops, can be encoded in latin-1, the headers of
    the final response are those of the primary response without
    content-encoding and transfer-encoding and with the content-length of
    the primary response replaced by the one the constructor computes from
    the body (none for a status code below 200, 204 and 304); every other
    header is kept with its value; the content type is the content-type
    header of the primary response, and none when it has no such header. *)
Theorem primary_headers_rebuilt net order CONFIG request path o primary :
  w_sent (snd (handle net order CONFIG request path initial)) !! 0 = Some o →
  net 0 o = Ok primary →
  Starlette.encodable (sanitized (resp_headers primary)) = true →
  ∃ response,
    fst (handle net order CONFIG request path initial) = Ok response ∧
    Starlette.headers response !! "content-encoding" = None ∧
    Starlette.headers response !! "transfer-encoding" = None ∧
    Starlette.headers response !! "content-length" =
    (if Starlette.bodiless (resp_status_code primary) then None
     else Some (Starlette.decimal (length (resp_content primary)))) ∧
    (∀ k, k ≠ "content-encoding" → k ≠ "content-length" →
          k ≠ "transfer-encoding" →
          Starlette.headers response !! k = resp_headers primary !! k) ∧
    Starlette.media_type response = resp_headers primary !! "content-type".
Proof.
  rewrite handle_snd. intros Ho Hnet Henc.
  exists (passed_on primary). split_and!.
  - rewrite handle_fst, (forward_primary_ok _ _ _ _ _ _ _ Ho Hnet).
    by rewrite construct_primary_result, Henc.
  - simpl. destruct (Starlette.bodiless _).
    + by rewrite sanitized_lookup.
    + rewrite lookup_insert_ne by done. by rewrite sanitized_lookup.
  - simpl. destruct (Starlette.bodiless _).
    + by rewrite sanitized_lookup.
    + rewrite lookup_insert_ne by done. by rewrite sanitized_lookup.
  - simpl. destruct (Starlette.bodiless _).
    + by rewrite sanitized_lookup.
    + by rewrite lookup_insert_eq.
  - intros k H1 H2 H3. simpl.
    assert (sanitized (resp_headers primary) !! k = resp_headers primary !! k)
      as Hk.
    { rewrite sanitized_lookup. rewrite bool_decide_eq_false_2; [done|].
      by intros [?|[?|?]]. }
    destruct (Starlette.bodiless _); [done|].
    by rewrite lookup_insert_ne.
  - done.
Qed.


(** X6: [log_request], from any state.  It returns when the body is empty
    or decodes as UTF-8 and the receipt can be serialised, and then logs
    one record, the receipt, whose body entry is [None] for an empty body,
    the parsed value when [json.loads] accepts the text, and the text
    itself when it does not.  It raises [UnicodeDecodeError] for a body that
    does not decode and [RecursionError] for a parsed body that [json.dumps]
    cannot serialise, and then logs nothing.  It hands nothing to the
    client, and keeps the body on the request object. *)
Theorem log_request_run request w :
  log_request request w =
  (if decodable (body_in request w)
   then
     if serialisable (body_in request w)
     then Ok (receipt request (body_in request w))
     else Raise RecursionError
   else Raise UnicodeDecodeError,
   mkWorld (Some (body_in request w))
     (w_log w ++
      if loggable (body_in request w)
      then [RequestReceived (receipt request (body_in request w))]
      else [])
     (w_sent w)) ∧
  ld_body (receipt request (body_in request w)) =
  match body_in request w with
  | [] => None
  | _ :: _ =>
      Some (match json_loads (str_of_bytes (body_in request w)) with
            | Some j => BodyJson j
            | None => BodyText (str_of_bytes (body_in request w))
            end)
  end.
Proof.
  split.
  - destruct (loggable (body_in request w)) eqn:Hl.
    + rewrite log_request_ok by done.
      by apply andb_prop in Hl as [-> ->].
    + rewrite log_request_raises by done. rewrite app_nil_r.
      unfold receipt_error. unfold loggable in Hl.
      destruct (decodable (body_in request w)); [|done].
      simpl in Hl. by rewrite Hl.
  - simpl. unfold parsed_body.
    destruct (body_in request w); simpl; [done|].
    by destruct (json_loads _).
Qed.

(** X9: when the dispatch to the first configured URL ends in a response
    whose headers, without the three the handler pops, can be encoded in
    latin-1, the handler returns a response with the status code and the
    body bytes of that response, whatever the status code. *)
Theorem primary_response_passed_on net order CONFIG request path o primary :
  w_sent (snd (handle net order CONFIG request path initial)) !! 0 = Some o →
  net 0 o = Ok primary →
  Starlette.encodable (sanitized (resp_headers primary)) = true →
  ∃ response,
    fst (handle net order CONFIG request path initial) = Ok response ∧
    Starlette.status_code response = resp_status_code primary ∧
    Starlette.body response = resp_content primary.
Proof.
  rewrite handle_snd. intros Ho Hnet Henc.
  exists (passed_on primary). split_and!; [|done..].
  rewrite handle_fst, (forward_primary_ok _ _ _ _ _ _ _ Ho Hnet).
  by rewrite construct_primary_result, Henc.
Qed.


End Handler.

(** ** Concrete runs *)

(** The timeout of the primary is answered 502, not 500. *)
Lemma dispatch_failure_never_500_witness :
  w_sent (snd (forward loads_nothing dumps_nothing net_primary_timeout [1; 0] two_urls
                 get_request "api" initial)) !! 0 = Some primary_outbound ∧
  net_primary_timeout 0 primary_outbound = Raise timeout ∧
  fst (forward loads_nothing dumps_nothing net_primary_timeout [1; 0] two_urls get_request
         "api" initial) =
  Ok (error_response "No valid response from primary URL" 502) ∧
  fst (forward loads_nothing dumps_nothing net_primary_timeout [1; 0] two_urls get_request
         "api" initial) ≠
  Ok (error_response "Forwarding failed" 500).
Proof.
  assert (w_sent (snd (forward loads_nothing dumps_nothing net_primary_timeout [1; 0]
                         two_urls get_request "api" initial)) !! 0
          = Some primary_outbound) as Hsent by (vm_compute; reflexivity).
  destruct (dispatch_failure_never_500 loads_nothing dumps_nothing net_primary_timeout
              [1; 0] two_urls get_request "api") as (_ & H500 & _ & H502).
  split; [exact Hsent|]. split; [reflexivity|].
  split; [exact (H502 primary_outbound timeout Hsent eq_refl)|].
  exact (H500 initial).
Defined.

(** Three destinations, the second one refusing the connection, completing
    in the order 2, 0, 1. *)
Lemma outcomes_keep_positions_witness :
  ∃ responses w',
    gather (make_tasks net_second_refused get_request
              (receipt loads_nothing get_request []) 0 three_urls [])
      true [2; 0; 1] initial = (Ok responses, w') ∧
    responses = [VResponse not_found; VException refused; VResponse ok_response] ∧
    respond responses = primary_result not_found.
Proof.
  destruct (outcomes_keep_positions net_second_refused get_request
              (receipt loads_nothing get_request []) three_urls [2; 0; 1]
              initial) as (rs & w' & Hg & _ & _ & H3 & _).
  exists rs, w'. split; [exact Hg|].
  exact (H3 _ _ _ not_found refused ok_response eq_refl eq_refl eq_refl eq_refl).
Defined.


(** C4 as the claim has it fails: for a refused connection
    [forward_request] does not return a value, it raises the exception of
    the client into its caller. *)
Lemma dispatcher_raises :
  fst (forward_request refusing "http://mirror/hook" get_request
         (receipt loads_nothing get_request []) initial) = Raise refused.
Proof. reflexivity. Qed.

(** The refused connection is logged with the destination URL and raised
    again; the join holds it as a value. *)
Lemma transport_error_logged_and_reraised_witness :
  refusing (outbound_request "http://mirror/hook" get_request
              (body_in get_request (@initial Empty_set))) = Raise refused ∧
  ∃ w',
    forward_request refusing "http://mirror/hook" get_request
      (receipt loads_nothing get_request []) initial = (Raise refused, w') ∧
    last (w_log w') =
    Some (ForwardingError (receipt loads_nothing get_request [])
            "http://mirror/hook" "All connection attempts failed") ∧
    (∀ order, ∃ w'',
       gather [mkTask refusing "http://mirror/hook" get_request
                 (receipt loads_nothing get_request [])] true order initial =
       (Ok [VException refused], w'')).
Proof.
  split; [reflexivity|].
  exact (transport_error_logged_and_reraised refusing "http://mirror/hook"
           get_request (receipt loads_nothing get_request []) initial
           refused eq_refl).
Defined.

(** Called with [return_exceptions=False], the join would raise the
    exception of a task, and the [except] clause of the handler would be
    entered. *)
Example gather_false_raises :
  fst (gather [mkTask refusing "http://mirror/hook" get_request
                 (receipt loads_nothing get_request [])] false [0] initial)
  = Raise refused.
Proof. reflexivity. Qed.

(** The order of completion shows in the log and not in the list of
    outcomes. *)
Example completion_order_in_log :
  let run order :=
    gather (make_tasks net_second_refused get_request
              (receipt loads_nothing get_request []) 0 three_urls [])
      true order initial in
  fst (run [0; 1; 2]) = fst (run [2; 1; 0]) ∧
  w_log (snd (run [0; 1; 2])) ≠ w_log (snd (run [2; 1; 0])).
Proof. split; [reflexivity|]. vm_compute. discriminate. Qed.

(** ** Concrete runs for the properties beyond the claims *)

(** The same request under another path and from another client. *)
Lemma result_ignores_path_and_client_witness :
  req_method get_request = req_method moved_request ∧
  req_headers get_request = req_headers moved_request ∧
  url_query (req_url get_request) = url_query (req_url moved_request) ∧
  req_stream get_request = req_stream moved_request ∧
  fst (forward loads_nothing dumps_nothing net_second_refused [2; 0; 1]
         (mkConfig three_urls) get_request "api" initial) =
  fst (forward loads_nothing dumps_nothing net_second_refused [0; 1; 2]
         (mkConfig three_urls) moved_request "v2/other" initial) ∧
  w_sent (snd (forward loads_nothing dumps_nothing net_second_refused [2; 0; 1]
                 (mkConfig three_urls) get_request "api" initial)) =
  w_sent (snd (forward loads_nothing dumps_nothing net_second_refused [0; 1; 2]
                 (mkConfig three_urls) moved_request "v2/other" initial)).
Proof.
  split; [reflexivity|]. split; [reflexivity|].
  split; [reflexivity|]. split; [reflexivity|].
  exact (result_ignores_path_and_client loads_nothing dumps_nothing net_second_refused
           [2; 0; 1] [0; 1; 2] (mkConfig three_urls) get_request
           moved_request "api" "v2/other" eq_refl eq_refl eq_refl eq_refl).
Defined.

(** ** Concrete runs with the constructor *)

(** The primary times out; in one run there is a mirror, which answers 200,
    in the other there is the primary alone: both runs answer 502 with the
    error body. *)
Lemma response_depends_on_primary_only_witness :
  forward_urls two_urls !! 0 = forward_urls one_url !! 0 ∧
  (∀ url, forward_urls two_urls !! 0 = Some url →
     net_primary_timeout 0
       (outbound_request url get_request (req_stream get_request)) =
     net_all_timeout 0
       (outbound_request url get_request (req_stream get_request))) ∧
  w_sent (snd (forward loads_nothing dumps_nothing net_primary_timeout
                 [1; 0] two_urls get_request "api" initial)) !! 0
  = Some primary_outbound ∧
  net_primary_timeout 0 primary_outbound = Raise timeout ∧
  net_primary_timeout 1 (outbound_request "http://mirror/hook" get_request [])
  = Ok ok_response ∧
  fst (handle loads_nothing dumps_nothing net_primary_timeout [1; 0]
         two_urls get_request "api" initial) =
  fst (handle loads_nothing dumps_nothing net_all_timeout [0] one_url
         get_request "api" initial) ∧
  ∃ response,
    fst (handle loads_nothing dumps_nothing net_primary_timeout [1; 0]
           two_urls get_request "api" initial) = Ok response ∧
    Starlette.status_code response = 502%Z ∧
    Starlette.body response = no_valid_response_body.
Proof.
  assert (∀ url, forward_urls two_urls !! 0 = Some url →
     net_primary_timeout 0
       (outbound_request url get_request (req_stream get_request)) =
     net_all_timeout 0
       (outbound_request url get_request (req_stream get_request)))
    as Hsame by (intros url _; reflexivity).
  assert (w_sent (snd (forward loads_nothing dumps_nothing
                         net_primary_timeout [1; 0] two_urls get_request
                         "api" initial)) !! 0
          = Some primary_outbound) as Hsent by (vm_compute; reflexivity).
  destruct (response_depends_on_primary_only loads_nothing dumps_nothing
              net_primary_timeout net_all_timeout [1; 0] [0]
              two_urls one_url get_request "api" eq_refl Hsame)
    as (_ & Heq & H502).
  destruct (H502 primary_outbound timeout Hsent eq_refl)
    as (_ & _ & response & H1 & _ & Hstatus & Hbody & _).
  split; [reflexivity|]. split; [exact Hsame|]. split; [exact Hsent|].
  split; [reflexivity|]. split; [reflexivity|]. split; [exact Heq|].
  exists response. split; [exact H1|]. split; [exact Hstatus|exact Hbody].
Defined.

(** C7 as the claim has it fails: the final response to a primary response
    that came compressed carries a content-length header, the length of the
    five bytes of the content. *)
Lemma content_length_in_final_response :
  match fst (handle loads_nothing dumps_nothing net_gzip [0] one_url
               get_request "api" initial) with
  | Ok response => Starlette.headers response !! "content-length"
  | Raise _ => None
  end = Some "5".
Proof. vm_compute. reflexivity. Qed.

(** The headers of the final response to that primary response: the trace
    id and the content type stay, the content-length is the one of the
    content. *)
Lemma primary_headers_rebuilt_witness :
  w_sent (snd (handle loads_nothing dumps_nothing net_gzip [0] one_url
                 get_request "api" initial)) !! 0 = Some primary_outbound ∧
  net_gzip 0 primary_outbound = Ok gzip_response ∧
  Starlette.encodable (sanitized (resp_headers gzip_response)) = true ∧
  ∃ response,
    fst (handle loads_nothing dumps_nothing net_gzip [0] one_url
           get_request "api" initial) = Ok response ∧
    Starlette.headers response !! "content-encoding" = None ∧
    Starlette.headers response !! "transfer-encoding" = None ∧
    Starlette.headers response !! "content-length" = Some "5" ∧
    Starlette.headers response !! "x-trace-id" = Some "abc123" ∧
    Starlette.media_type response = Some "text/plain".
Proof.
  assert (w_sent (snd (handle loads_nothing dumps_nothing net_gzip [0]
                         one_url get_request "api" initial)) !! 0
          = Some primary_outbound) as Hsent by (vm_compute; reflexivity).
  assert (Starlette.encodable (sanitized (resp_headers gzip_response))
          = true) as Henc by (vm_compute; reflexivity).
  destruct (primary_headers_rebuilt loads_nothing dumps_nothing net_gzip [0]
              one_url get_request "api" primary_outbound gzip_response
              Hsent eq_refl Henc)
    as (response & Hr & Hce & Hte & Hcl & Hother & Hmt).
  split; [exact Hsent|]. split; [reflexivity|]. split; [exact Henc|].
  exists response. split; [exact Hr|]. split; [exact Hce|].
  split; [exact Hte|]. split; [exact Hcl|]. split; [|exact Hmt].
  rewrite (Hother "x-trace-id"); [reflexivity|discriminate..].
Defined.

(** A 404 from the primary reaches the caller as a 404 with the same
    body. *)
Lemma primary_response_passed_on_witness :
  w_sent (snd (handle loads_nothing dumps_nothing net_not_found [0] one_url
                 get_request "api" initial)) !! 0 = Some primary_outbound ∧
  net_not_found 0 primary_outbound = Ok not_found ∧
  Starlette.encodable (sanitized (resp_headers not_found)) = true ∧
  ∃ response,
    fst (handle loads_nothing dumps_nothing net_not_found [0] one_url
           get_request "api" initial) = Ok response ∧
    Starlette.status_code response = 404%Z ∧
    Starlette.body response = resp_content not_found.
Proof.
  assert (w_sent (snd (handle loads_nothing dumps_nothing net_not_found [0]
                         one_url get_request "api" initial)) !! 0
          = Some primary_outbound) as Hsent by (vm_compute; reflexivity).
  assert (Starlette.encodable (sanitized (resp_headers not_found)) = true)
    as Henc by (vm_compute; reflexivity).
  split; [exact Hsent|]. split; [reflexivity|]. split; [exact Henc|].
  exact (primary_response_passed_on loads_nothing dumps_nothing
           net_not_found [0] one_url get_request "api" primary_outbound
           not_found Hsent eq_refl Henc).
Defined.


(** A body that [json.loads] accepts and [json.dumps] finds too deep:
    [log_request] raises [RecursionError] out of the handler, and nothing is
    handed to the client. *)
Example receipt_not_serialisable :
  handle loads_nested dumps_too_deep net_not_found [0] one_url
    nested_request "api" initial =
  (Raise RecursionError,
   mkWorld (Some (req_stream nested_request)) [] []).
Proof. vm_compute. reflexivity. Qed.
